(** * Pitch-Perfect: the transcript segment aggregator and the processing
      orchestrator

    The first part embeds [scripts/whisper_fixed_segments.py]:
    [create_fixed_segments], [save_as_srt] and the command-line entry point,
    on the values [json.load] produces, with the exceptions Python raises on
    ill-typed documents.  The second part is the stage machine of the
    processing orchestrator; its implementation is not among the sources,
    so the machine follows the specification.

    Modelling conventions.
    - Seconds are exact rationals ([Q]): the values Python reads from the JSON
      document, with [+], [/], [//], [%], the comparisons and the rounding of
      ['%.3f'] computed exactly.  The rounding of binary64 arithmetic is
      outside the model, and so are the non-finite numbers Python's [json]
      accepts.
    - A Python [str] is a [string] whose characters are code points below 256.
    - A computation returns an [outcome]: a value, a raised exception, or
      [OutOfFuel] when the [while] loop is cut after a given number of
      iterations. *)

From Stdlib Require Import List String Ascii Bool ZArith NArith QArith Qround.
From Stdlib Require Import Qabs Qminmax DecimalString.
From Stdlib Require Import Lia Lqa.
Import ListNotations.

Local Open Scope string_scope.
Local Open Scope list_scope.
Local Open Scope Q_scope.

(** ** Python values, exceptions and outcomes *)

Module Py.

Inductive exn : Type :=
| FileNotFoundError
| JSONDecodeError
| KeyError
| IndexError
| TypeError
| AttributeError
| ValueError
| SystemExit.

Inductive outcome (A : Type) : Type :=
| Ok (a : A)
| Raise (e : exn)
| OutOfFuel.

Arguments Ok {A} a.
Arguments Raise {A} e.
Arguments OutOfFuel {A}.

Definition bind {A B : Type} (m : outcome A) (k : A -> outcome B) : outcome B :=
  match m with
  | Ok a => k a
  | Raise e => Raise e
  | OutOfFuel => OutOfFuel
  end.

(** What [json.load] builds: [None], [bool], [int]/[float], [str], [list]
    and [dict] (the items of the dict, one per key). *)
#[local] Set Warnings "-register-all".
Inductive json : Type :=
| JNull
| JBool (b : bool)
| JNum (q : Q)
| JStr (s : string)
| JArr (l : list json)
| JObj (items : list (string * json)).

Fixpoint assoc (k : string) (items : list (string * json)) : option json :=
  match items with
  | [] => None
  | (k', v) :: rest => if String.eqb k k' then Some v else assoc k rest
  end.

(** [v[k]] for a [str] key [k]: only a dict can be indexed by a string. *)
Definition getitem (v : json) (k : string) : outcome json :=
  match v with
  | JObj items =>
      match assoc k items with
      | Some x => Ok x
      | None => Raise KeyError
      end
  | _ => Raise TypeError
  end.

Fixpoint last_char (s : string) : option ascii :=
  match s with
  | EmptyString => None
  | String c EmptyString => Some c
  | String _ s' => last_char s'
  end.

Fixpoint last_item (l : list json) : option json :=
  match l with
  | [] => None
  | [x] => Some x
  | _ :: l' => last_item l'
  end.

(** [v[-1]]: the last element of a list, the last character of a string;
    a dict loaded from JSON has string keys only, so [-1] is a missing key. *)
Definition getitem_last (v : json) : outcome json :=
  match v with
  | JArr l =>
      match last_item l with
      | Some x => Ok x
      | None => Raise IndexError
      end
  | JStr s =>
      match last_char s with
      | Some c => Ok (JStr (String c EmptyString))
      | None => Raise IndexError
      end
  | JObj _ => Raise KeyError
  | _ => Raise TypeError
  end.

(** Truth value of an object in a condition. *)
Definition truthy (v : json) : bool :=
  match v with
  | JNull => false
  | JBool b => b
  | JNum q => negb (Qeq_bool q 0)
  | JStr s => negb (String.eqb s "")
  | JArr l => match l with [] => false | _ => true end
  | JObj items => match items with [] => false | _ => true end
  end.

(** The numeric value of an operand of [+], [/] and [<]: [bool] is a subclass
    of [int], so [True] and [False] count as 1 and 0; the model keeps that
    value only. *)
Definition as_number (v : json) : option Q :=
  match v with
  | JNum q => Some q
  | JBool b => Some (if b then 1 else 0)
  | _ => None
  end.

(** The sequence a [for] loop draws from an object. *)
Definition iter (v : json) : outcome (list json) :=
  match v with
  | JArr l => Ok l
  | JStr s => Ok (map (fun c => JStr (String c EmptyString)) (list_ascii_of_string s))
  | JObj items => Ok (map (fun kv => JStr (fst kv)) items)
  | _ => Raise TypeError
  end.

Definition Qlt_bool (x y : Q) : bool := negb (Qle_bool y x).

(** [min(a, b)]: the first argument unless the second is strictly smaller. *)
Definition min (a b : Q) : Q := if Qlt_bool b a then b else a.

(** *** [str.strip] and [str.join] *)

(** [str.isspace] on the code points below 256. *)
Definition isspace (c : ascii) : bool :=
  let n := N_of_ascii c in
  (((9 <=? n) && (n <=? 13)) || ((28 <=? n) && (n <=? 32))
   || (n =? 133) || (n =? 160))%N.

Fixpoint lstrip (s : string) : string :=
  match s with
  | EmptyString => EmptyString
  | String c s' => if isspace c then lstrip s' else s
  end.

Fixpoint rstrip (s : string) : string :=
  match s with
  | EmptyString => EmptyString
  | String c s' =>
      match rstrip s' with
      | EmptyString => if isspace c then EmptyString else String c EmptyString
      | r => String c r
      end
  end.

Definition strip (s : string) : string := rstrip (lstrip s).



(** [sep.join(l)] *)
Definition join (sep : string) (l : list string) : string := String.concat sep l.

(** [v.strip()]: only [str] has the method. *)
Definition strip_method (v : json) : outcome string :=
  match v with
  | JStr s => Ok (strip s)
  | _ => Raise AttributeError
  end.

End Py.

Import Py.

Notation "x <- m ;; k" := (Py.bind m (fun x => k))
  (at level 61, m at next level, right associativity).

(** ** [scripts/whisper_fixed_segments.py] *)

Module Whisper.

(** One entry of [fixed_segments]: the dict
    [{'id': .., 'start': .., 'end': .., 'text': ..}]. *)
Record window : Type := Window {
  w_id : Z;
  w_start : Q;
  w_end : Q;
  w_text : string
}.

(** What [json.load] makes of a file. *)
Inductive file : Type :=
| Document (data : json)
| Malformed.

Definition filesystem : Type := string -> option file.

(** [(seg['start'] + seg['end']) / 2]: [+] also joins two strings or two
    lists, and [/] then raises; the division succeeds on numbers only. *)
Definition midpoint (s e : json) : outcome Q :=
  match as_number s, as_number e with
  | Some a, Some b => Ok ((a + b) / 2)
  | _, _ => Raise TypeError
  end.

(** The [for seg in segments] loop of one window. *)
Fixpoint collect (segments : list json) (current_time segment_end : Q)
    (segment_text : list string) : outcome (list string) :=
  match segments with
  | [] => Ok segment_text
  | seg :: rest =>
      s <- getitem seg "start" ;;
      e <- getitem seg "end" ;;
      seg_midpoint <- midpoint s e ;;
      if Qle_bool current_time seg_midpoint && Qlt_bool seg_midpoint segment_end
      then
        t <- getitem seg "text" ;;
        piece <- strip_method t ;;
        collect rest current_time segment_end (segment_text ++ [piece])
      else collect rest current_time segment_end segment_text
  end.

(** The [while current_time < total_duration] loop, cut after [fuel]
    iterations. *)
Fixpoint while_loop (fuel : nat) (segments : json)
    (segment_duration total_duration : Q)
    (current_time : Q) (segment_id : Z) (fixed_segments : list window)
    : outcome (list window) :=
  if Qlt_bool current_time total_duration then
    match fuel with
    | O => OutOfFuel
    | S fuel' =>
        let segment_end := Py.min (current_time + segment_duration) total_duration in
        l <- iter segments ;;
        segment_text <- collect l current_time segment_end [] ;;
        let combined_text := join " " segment_text in
        while_loop fuel' segments segment_duration total_duration
          segment_end (segment_id + 1)%Z
          (fixed_segments
             ++ [Window segment_id current_time segment_end combined_text])
    end
  else Ok fixed_segments.

(** [segments[-1]['end'] if segments else 0] *)
Definition total_duration_of (segments : json) : outcome json :=
  if truthy segments then
    x <- getitem_last segments ;;
    getitem x "end"
  else Ok (JNum 0).

(** The first test [current_time < total_duration] raises on a value that is
    not a number; the value does not change afterwards. *)
Definition comparable (v : json) : outcome Q :=
  match as_number v with
  | Some q => Ok q
  | None => Raise TypeError
  end.

Definition create_fixed_segments (fuel : nat) (fs : filesystem)
    (json_file : string) (segment_duration : Q) : outcome (list window) :=
  match fs json_file with
  | None => Raise FileNotFoundError
  | Some Malformed => Raise JSONDecodeError
  | Some (Document data) =>
      segments <- getitem data "segments" ;;
      total <- total_duration_of segments ;;
      total_duration <- comparable total ;;
      while_loop fuel segments segment_duration total_duration 0 1 []
  end.

(** *** Typed view of the input

    A transcript segment [{start, end, text}] and the document
    [{"segments": [...]}] that holds a sequence of them. *)

Record segment : Type := Segment {
  seg_start : Q;
  seg_end : Q;
  seg_text : string
}.

Definition segment_json (s : segment) : json :=
  JObj [("start", JNum (seg_start s)); ("end", JNum (seg_end s));
        ("text", JStr (seg_text s))].

Definition window_json (w : window) : json :=
  JObj [("id", JNum (inject_Z (w_id w))); ("start", JNum (w_start w));
        ("end", JNum (w_end w)); ("text", JStr (w_text w))].

Definition document (l : list json) : json := JObj [("segments", JArr l)].

(** A file system holding one document at [path]. *)
Definition single (path : string) (data : json) : filesystem :=
  fun p => if String.eqb p path then Some (Document data) else None.

(** [create_fixed_segments] on a file that holds the segments [segs]. *)
Definition run (fuel : nat) (segs : list segment) (D : Q) : outcome (list window) :=
  create_fixed_segments fuel
    (single "in.json" (document (map segment_json segs))) "in.json" D.


(** The midpoint of a segment and the test
    [current_time <= seg_midpoint < segment_end]. *)
Definition mid (s : segment) : Q := (seg_start s + seg_end s) / 2.

Definition in_window (a b : Q) (s : segment) : bool :=
  Qle_bool a (mid s) && Qlt_bool (mid s) b.

(** The text a window [a, b) is specified to carry: the trimmed texts of the
    segments whose midpoint lies in the window, in input order, joined by
    one space. *)
Definition assigned_text (segs : list segment) (a b : Q) : string :=
  join " " (map (fun s => strip (seg_text s)) (filter (in_window a b) segs)).

(** [T]: the end of the last segment, 0 for the empty sequence. *)
Fixpoint last_end (segs : list segment) : Q :=
  match segs with
  | [] => 0
  | [s] => seg_end s
  | _ :: rest => last_end rest
  end.

(** The windows the loop appends from [current_time] on, when every element
    of the input is a well-typed segment. *)
Fixpoint windows_from (fuel : nat) (segs : list segment) (D T : Q)
    (current_time : Q) (segment_id : Z) : outcome (list window) :=
  if Qlt_bool current_time T then
    match fuel with
    | O => OutOfFuel
    | S fuel' =>
        let segment_end := Py.min (current_time + D) T in
        ws <- windows_from fuel' segs D T segment_end (segment_id + 1)%Z ;;
        Ok (Window segment_id current_time segment_end
              (assigned_text segs current_time segment_end) :: ws)
    end
  else Ok [].

(** A JSON value that reads as the segment [s]: an object whose [start] and
    [end] are the numbers and whose [text] is the string of [s]. *)
Definition seg_view (j : json) (s : segment) : Prop :=
  getitem j "start" = Ok (JNum (seg_start s))
  /\ getitem j "end" = Ok (JNum (seg_end s))
  /\ getitem j "text" = Ok (JStr (seg_text s)).







(** The midpoints that lie in [0, T). *)
Definition inside (T : Q) (s : segment) : bool := in_window 0 T s.

(** *** [save_as_srt] *)

Definition nl : string := String "010"%char EmptyString.

(** [str(n)] for a natural number. *)
Definition decimal (n : N) : string := NilZero.string_of_uint (N.to_uint n).

Fixpoint zeros (k : nat) : string :=
  match k with
  | O => EmptyString
  | S k' => String "0"%char (zeros k')
  end.

(** Zero padding to a minimal width: ['{:0w}']. *)
Definition zfill (w : nat) (s : string) : string :=
  (zeros (w - String.length s) ++ s)%string.

(** [f"{n}"] and [f"{n:02d}"] for an [int]: the sign counts in the width. *)
Definition format_d (n : Z) : string :=
  if (n <? 0)%Z then ("-" ++ decimal (Z.to_N (- n)))%string
  else decimal (Z.to_N n).

Definition format_02d (n : Z) : string :=
  if (n <? 0)%Z then ("-" ++ zfill 1 (decimal (Z.to_N (- n))))%string
  else zfill 2 (decimal (Z.to_N n)).

(** Rounding to the nearest integer, ties to even. *)
Definition round_half_even (x : Q) : Z :=
  let f := Qfloor x in
  let r := x - inject_Z f in
  if Qlt_bool r (1 # 2) then f
  else if Qlt_bool (1 # 2) r then (f + 1)%Z
  else if Z.even f then f else (f + 1)%Z.

(** [f"{x:06.3f}"]: three decimals, zero padded to six characters with the
    sign. *)
Definition fixed3 (m : N) : string :=
  (decimal (m / 1000) ++ "." ++ zfill 3 (decimal (m mod 1000)))%string.

Definition format_063f (x : Q) : string :=
  let m := Z.to_N (round_half_even (Qabs x * 1000)) in
  if Qlt_bool x 0 then ("-" ++ zfill 5 (fixed3 m))%string
  else zfill 6 (fixed3 m).

(** [x // m] and [x % m] for [m > 0]. *)
Definition floordiv (x m : Q) : Z := Qfloor (x / m).
Definition pymod (x m : Q) : Q := x - m * inject_Z (floordiv x m).

(** [hours:02d]:[mins:02d]:[secs:06.3f] of a time in seconds. *)
Definition timestamp (t : Q) : string :=
  let hours := floordiv t 3600 in
  let mins := floordiv (pymod t 3600) 60 in
  let secs := pymod t 60 in
  (format_02d hours ++ ":" ++ format_02d mins ++ ":" ++ format_063f secs)%string.

(** The three [f.write] calls of one entry. *)
Definition write_entry (f : string) (seg : window) : string :=
  let f1 := (f ++ (format_d (w_id seg) ++ nl))%string in
  let f2 := (f1 ++ (timestamp (w_start seg) ++ " --> "
                    ++ timestamp (w_end seg) ++ nl))%string in
  (f2 ++ (w_text seg ++ nl ++ nl))%string.

(** The content of the file [save_as_srt] writes. *)
Definition save_as_srt (segments : list window) : string :=
  fold_left write_entry segments EmptyString.

(** One subtitle entry as specified: number, time line, text, blank line. *)
Definition srt_entry (number : Z) (w : window) : string :=
  (format_d number ++ nl
   ++ timestamp (w_start w) ++ " --> " ++ timestamp (w_end w) ++ nl
   ++ w_text w ++ nl ++ nl)%string.

Definition is_digit (c : ascii) : bool :=
  let n := N_of_ascii c in ((48 <=? n) && (n <=? 57))%N.

Fixpoint all_digits (s : string) : bool :=
  match s with
  | EmptyString => true
  | String c s' => is_digit c && all_digits s'
  end.

(** The entries numbered by position, from [k] on. *)
Fixpoint numbered (k : Z) (ws : list window) : list string :=
  match ws with
  | [] => []
  | w :: rest => srt_entry k w :: numbered (k + 1) rest
  end.

(** [MM]: exactly two digits. *)
Definition two_digits (s : string) : bool :=
  match s with
  | String m1 (String m2 EmptyString) => is_digit m1 && is_digit m2
  | _ => false
  end.

(** [SS.mmm]: two digits, a dot, three digits. *)
Definition seconds_shape (s : string) : bool :=
  match s with
  | String s1 (String s2 (String dot (String d1 (String d2 (String d3
      EmptyString))))) =>
      is_digit s1 && is_digit s2 && Ascii.eqb dot "."
      && is_digit d1 && is_digit d2 && is_digit d3
  | _ => false
  end.

(** [f] holds of the [k] numbers from [start] on. *)
Fixpoint all_from (f : N -> bool) (start : N) (k : nat) : bool :=
  match k with
  | O => true
  | S k' => f start && all_from f (N.succ start) k'
  end.

(** [MM:SS.mmm]: two digits, a colon, two digits, a dot, three digits. *)
Definition clock_tail (s : string) : bool :=
  match s with
  | String m1 (String m2 (String c1 (String s1 (String s2 (String dot
      (String d1 (String d2 (String d3 EmptyString)))))))) =>
      is_digit m1 && is_digit m2 && Ascii.eqb c1 ":"
      && is_digit s1 && is_digit s2 && Ascii.eqb dot "."
      && is_digit d1 && is_digit d2 && is_digit d3
  | _ => false
  end.

(** *** The command line *)

(** [s.replace(old, new)] for a non-empty [old]: every occurrence, scanning
    from the left, an occurrence being skipped once replaced. *)
Fixpoint replace_from (skip : nat) (old new s : string) : string :=
  match s with
  | EmptyString => EmptyString
  | String c s' =>
      match skip with
      | S k => replace_from k old new s'
      | O =>
          if String.prefix old s
          then (new ++ replace_from (String.length old - 1) old new s')%string
          else String c (replace_from 0 old new s')
      end
  end.

Definition replace (old new s : string) : string := replace_from 0 old new s.

(** [old in s] *)
Fixpoint contains (old s : string) : bool :=
  match s with
  | EmptyString => String.prefix old EmptyString
  | String _ s' => String.prefix old s || contains old s'
  end.

(** What is written to a file: [json.dump] of a value, or text. *)
Inductive content : Type :=
| JsonDump (data : json)
| Text (s : string).

Section Main.

(** [float(s)] on a command-line argument; [None] when it raises. *)
Variable float : string -> option Q.

(** The body under [if __name__ == "__main__"]: the files written, in
    order.  [argv] is [sys.argv]. *)
Definition main (fuel : nat) (fs : filesystem) (argv : list string)
    : outcome (list (string * content)) :=
  match argv with
  | [] | [_] => Raise SystemExit
  | _ :: json_file :: rest =>
      segment_duration <-
        match rest with
        | [] => Ok 5
        | a :: _ =>
            match float a with
            | Some d => Ok d
            | None => Raise ValueError
            end
        end ;;
      fixed_segments <- create_fixed_segments fuel fs json_file segment_duration ;;
      let output_json := replace ".json" "_fixed_segments.json" json_file in
      let output_srt := replace ".json" "_fixed_segments.srt" json_file in
      Ok [(output_json, JsonDump (document (map window_json fixed_segments)));
          (output_srt, Text (save_as_srt fixed_segments))]
  end.

End Main.


(** A [float] that accepts no argument, for runs without a window length. *)
Definition no_float (s : string) : option Q := None.

(** The exit status of the process: 0 on normal termination, 1 when
    [sys.exit(1)] is called or an exception is not caught; none while the
    program runs. *)
Definition exit_status {A : Type} (r : outcome A) : option Z :=
  match r with
  | Ok _ => Some 0%Z
  | Raise _ => Some 1%Z
  | OutOfFuel => None
  end.

(** *** Further views of the input and of the output *)

(** The windows whose range contains the midpoint of [s]. *)
Definition holders (ws : list window) (s : segment) : list window :=
  filter (fun w => in_window (w_start w) (w_end w) s) ws.

(** A segment whose [text] key may be missing. *)
Record loose : Type := Loose {
  l_start : Q;
  l_end : Q;
  l_text : option string
}.

(** A JSON value that reads as the loose segment [l]: [start] and [end]
    are its numbers, [text] is its string or is not a key of the object. *)
Definition loose_view (j : json) (l : loose) : Prop :=
  getitem j "start" = Ok (JNum (l_start l))
  /\ getitem j "end" = Ok (JNum (l_end l))
  /\ getitem j "text" = match l_text l with
                        | Some t => Ok (JStr t)
                        | None => Raise KeyError
                        end.

(** The segment of a loose segment, a missing text read as empty. *)
Definition fill (l : loose) : segment :=
  Segment (l_start l) (l_end l)
    (match l_text l with Some t => t | None => EmptyString end).

(** Some segment with its midpoint in [a, b) has no text. *)
Definition missing_text (a b : Q) (ls : list loose) : bool :=
  existsb (fun l => in_window a b (fill l)
                    && match l_text l with Some _ => false | None => true end) ls.



End Whisper.

Import Whisper.

(** ** The processing orchestrator *)

Module Orchestrator.

(** The two branches of [processing]. *)
Inductive branch : Type := Frames | Transcript.

(** Modelled from the spec: the state of one branch of the compound state
    [processing]; the orchestrator itself is not among the sources, only
    the step definitions of its acceptance tests are. *)
Inductive branch_state : Type :=
| Pending
| WaitingForDependency
| Retrying
| Done
| BranchFailed.

(** Modelled from the spec: the stages of a job,
    [idle -> uploading -> processing -> analyzing(1..4) -> complete | failed]. *)
Inductive stage : Type :=
| Idle
| Uploading
| Processing
| Analyzing (n : nat)
| Complete
| Failed.

(** Modelled from the spec: [DependencyStatus], the value an external call
    attempt returns. *)
Inductive dependency_status : Type :=
| Ready
| Waiting (estimatedSeconds : nat)
| ProviderFailed (reason : string).

(** Modelled from the spec: a terminal failure record of [errors]. *)
Inductive failure : Type :=
| BranchFailure (b : branch) (reason : string)
| RetriesExhausted (b : branch)
| AnalysisFailure.

(** Modelled from the spec: [ProcessingJob], with the fields the stage
    machine reads and writes. *)
Record job : Type := Job {
  job_stage : stage;
  frames : branch_state;
  transcript : branch_state;
  retryCount : branch -> nat;
  analysis_retried : bool;
  errors : list failure
}.

Definition branch_of (j : job) (b : branch) : branch_state :=
  match b with
  | Frames => frames j
  | Transcript => transcript j
  end.

Definition set_branch (j : job) (b : branch) (s : branch_state) : job :=
  match b with
  | Frames =>
      Job (job_stage j) s (transcript j) (retryCount j) (analysis_retried j) (errors j)
  | Transcript =>
      Job (job_stage j) (frames j) s (retryCount j) (analysis_retried j) (errors j)
  end.

Definition branch_eqb (a b : branch) : bool :=
  match a, b with
  | Frames, Frames | Transcript, Transcript => true
  | _, _ => false
  end.

Definition bump (j : job) (b : branch) : job :=
  Job (job_stage j) (frames j) (transcript j)
    (fun b' => if branch_eqb b' b then S (retryCount j b') else retryCount j b')
    (analysis_retried j) (errors j).

(** A fatal condition: the job is latched into [failed] with one record. *)
Definition fail (j : job) (f : failure) : job :=
  Job Failed (frames j) (transcript j) (retryCount j) (analysis_retried j)
    (errors j ++ [f]).

Definition both_done (j : job) : bool :=
  match frames j, transcript j with
  | Done, Done => true
  | _, _ => false
  end.

(** Modelled from the spec: the join rule, evaluated every time a branch
    changes state. *)
Definition join_rule (j : job) : job :=
  match job_stage j with
  | Processing =>
      if both_done j
      then Job (Analyzing 1) (frames j) (transcript j) (retryCount j)
             (analysis_retried j) (errors j)
      else j
  | _ => j
  end.

(** An attempt is in flight on a branch that is pending or retrying. *)
Definition in_flight (s : branch_state) : bool :=
  match s with
  | Pending | Retrying => true
  | _ => false
  end.

(** What reaches the orchestrator. *)
Inductive event : Type :=
| SubmitUpload
| Attempt (b : branch) (st : dependency_status)
| RetryTimer (b : branch)
| AnalysisStageDone
| AnalysisStageFailed.

Definition initial : job :=
  Job Idle Pending Pending (fun _ => O) false [].

Section Machine.

(** The configured maximum of retries of a dependency. *)
Variable maxRetries : nat.

(** Modelled from the spec: [attemptTranscription] and
    [attemptFrameExtraction] on the status the provider returns.  [Waiting]
    counts a retry and, below the maximum, schedules one and leaves [errors]
    as it is; at the maximum the branch fails.  Once the job is failed the
    result of the sibling branch is discarded. *)
Definition on_attempt (j : job) (b : branch) (st : dependency_status) : job :=
  match job_stage j with
  | Processing =>
      if in_flight (branch_of j b) then
        match st with
        | Ready => join_rule (set_branch j b Done)
        | Waiting _ =>
            let j' := bump j b in
            if (retryCount j' b <? maxRetries)%nat
            then join_rule (set_branch j' b WaitingForDependency)
            else fail (set_branch j' b BranchFailed) (RetriesExhausted b)
        | ProviderFailed reason =>
            fail (set_branch j b BranchFailed) (BranchFailure b reason)
        end
      else j
  | _ => j
  end.

(** Modelled from the spec: one step of the stage machine. *)
Definition step (j : job) (e : event) : job :=
  match e with
  | SubmitUpload =>
      match job_stage j with
      | Idle => Job Processing Pending Pending (fun _ => O) false []
      | _ => j
      end
  | Attempt b st => on_attempt j b st
  | RetryTimer b =>
      match job_stage j, branch_of j b with
      | Processing, WaitingForDependency => join_rule (set_branch j b Retrying)
      | _, _ => j
      end
  | AnalysisStageDone =>
      match job_stage j with
      | Analyzing n =>
          Job (if (n <? 4)%nat then Analyzing (S n) else Complete)
            (frames j) (transcript j) (retryCount j) (analysis_retried j) (errors j)
      | _ => j
      end
  | AnalysisStageFailed =>
      match job_stage j with
      | Analyzing n =>
          if analysis_retried j then fail j AnalysisFailure
          else Job (Analyzing n) (frames j) (transcript j) (retryCount j) true
                 (errors j)
      | _ => j
      end
  end.

Definition run_events (j : job) (es : list event) : job := fold_left step es j.

(** The states of a job. *)
Inductive reachable : job -> Prop :=
| reach_initial : reachable initial
| reach_step (j : job) (e : event) : reachable j -> reachable (step j e).

End Machine.

(** A job whose frame extraction is done while transcription is pending,
    with at most three retries. *)
Definition frames_first : job :=
  run_events 3 initial [SubmitUpload; Attempt Frames Ready].


Definition is_analyzing (s : stage) : bool :=
  match s with
  | Analyzing _ => true
  | _ => false
  end.

Definition analyzing (j : job) : Prop := is_analyzing (job_stage j) = true.

(** What holds of every state of a job. *)
Definition invariant (j : job) : Prop :=
  (job_stage j = Processing ->
   both_done j = false /\ frames j <> BranchFailed /\ transcript j <> BranchFailed
   /\ errors j = [])
  /\ (analyzing j \/ job_stage j = Complete ->
      frames j = Done /\ transcript j = Done)
  /\ (frames j = BranchFailed \/ transcript j = BranchFailed ->
      job_stage j = Failed)
  /\ (job_stage j = Failed \/ errors j = [])
  /\ (List.length (errors j) <= 1)%nat
  /\ (job_stage j = Idle \/ job_stage j = Uploading ->
      frames j = Pending /\ transcript j = Pending /\ errors j = []).

End Orchestrator.

(** ** Facts about comparisons and [min] *)

Lemma Qlt_bool_iff (x y : Q) : Qlt_bool x y = true <-> x < y.
Proof.
  unfold Qlt_bool. rewrite negb_true_iff. split; intro H.
  - apply Qnot_le_lt. intro Hle. apply Qle_bool_iff in Hle. congruence.
  - destruct (Qle_bool y x) eqn:E; [|reflexivity].
    apply Qle_bool_iff in E. exfalso. exact (Qlt_not_le _ _ H E).
Qed.

Lemma Qlt_bool_false_iff (x y : Q) : Qlt_bool x y = false <-> y <= x.
Proof.
  unfold Qlt_bool. rewrite negb_false_iff. apply Qle_bool_iff.
Qed.

Lemma min_cases (a b : Q) :
  (b < a /\ Py.min a b = b) \/ (a <= b /\ Py.min a b = a).
Proof.
  unfold Py.min. destruct (Qlt_bool b a) eqn:E.
  - left. split; [apply Qlt_bool_iff; exact E | reflexivity].
  - right. split; [apply Qlt_bool_false_iff; exact E | reflexivity].
Qed.

(** ** Facts about strings *)

Lemma append_nil_r (s : string) : (s ++ "")%string = s.
Proof. induction s as [|c s IH]; [reflexivity | simpl; now rewrite IH]. Qed.

Lemma append_assoc (a b c : string) :
  ((a ++ b) ++ c)%string = (a ++ (b ++ c))%string.
Proof. induction a as [|x a IH]; [reflexivity | simpl; now rewrite IH]. Qed.

Lemma append_length (a b : string) :
  String.length (a ++ b) = (String.length a + String.length b)%nat.
Proof. induction a as [|x a IH]; [reflexivity | simpl; now rewrite IH]. Qed.

Lemma concat_cons (x : string) (l : list string) :
  String.concat "" (x :: l) = (x ++ String.concat "" l)%string.
Proof.
  destruct l as [|y l]; simpl; [now rewrite append_nil_r | reflexivity].
Qed.

(** ** The loop on well-typed segments *)

Lemma collect_view (a b : Q) (js : list json) (segs : list segment) :
  Forall2 seg_view js segs ->
  forall acc,
    collect js a b acc
    = Ok (acc ++ map (fun s => strip (seg_text s)) (filter (in_window a b) segs)).
Proof.
  induction 1 as [|j s js segs [Hs [He Ht]] _ IH]; intro acc; simpl.
  - now rewrite app_nil_r.
  - rewrite Hs, He. simpl. unfold in_window, mid.
    destruct (Qle_bool a ((seg_start s + seg_end s) / 2)
              && Qlt_bool ((seg_start s + seg_end s) / 2) b); simpl.
    + rewrite Ht. simpl. rewrite IH, <- app_assoc. reflexivity.
    + apply IH.
Qed.

Lemma while_loop_view (D T : Q) (js : list json) (segs : list segment) :
  Forall2 seg_view js segs ->
  forall fuel ct id acc,
    while_loop fuel (JArr js) D T ct id acc
    = (ws <- windows_from fuel segs D T ct id ;; Ok (acc ++ ws)).
Proof.
  intros Hv. induction fuel as [|fuel IH]; intros ct id acc; simpl.
  - destruct (Qlt_bool ct T); simpl; [reflexivity | now rewrite app_nil_r].
  - destruct (Qlt_bool ct T); simpl; [| now rewrite app_nil_r].
    rewrite (collect_view _ _ _ _ Hv). simpl. rewrite IH.
    unfold assigned_text.
    destruct (windows_from fuel segs D T (Py.min (ct + D) T) (id + 1)); simpl;
      [rewrite <- app_assoc|..]; reflexivity.
Qed.

Lemma bind_ok_nil (m : outcome (list window)) :
  (ws <- m ;; Ok ([] ++ ws)) = m.
Proof. destruct m; reflexivity. Qed.

Lemma last_item_view (js : list json) (segs : list segment) :
  Forall2 seg_view js segs ->
  js <> [] ->
  exists j, last_item js = Some j /\ getitem j "end" = Ok (JNum (last_end segs)).
Proof.
  induction 1 as [|j s js segs [_ [He _]] Hrest IH]; intro Hne; [congruence|].
  destruct Hrest as [|j' s' js' segs' Hv' Hrest'].
  - exists j. split; [reflexivity | exact He].
  - destruct IH as [j0 [Hl Hg]]; [discriminate|].
    exists j0. split; [exact Hl | exact Hg].
Qed.

Lemma create_view_fs (fuel : nat) (fs : filesystem) (path : string) (D : Q)
    (js : list json) (segs : list segment) :
  fs path = Some (Document (document js)) ->
  Forall2 seg_view js segs ->
  create_fixed_segments fuel fs path D
  = windows_from fuel segs D (last_end segs) 0 1.
Proof.
  intros Hfs Hv. unfold create_fixed_segments. rewrite Hfs.
  cbn [document getitem assoc String.eqb Ascii.eqb Bool.eqb bind].
  simpl.
  destruct js as [|j js].
  - inversion Hv; subst. cbn. rewrite (while_loop_view _ _ _ _ Hv). apply bind_ok_nil.
  - destruct (last_item_view _ _ Hv) as [j0 [Hl Hg]]; [discriminate|].
    unfold total_duration_of. cbn [truthy]. unfold getitem_last. rewrite Hl.
    cbn [bind]. rewrite Hg. cbn [bind comparable as_number].
    rewrite (while_loop_view _ _ _ _ Hv). apply bind_ok_nil.
Qed.

Lemma single_at (path : string) (data : json) :
  single path data path = Some (Document data).
Proof. unfold single. now rewrite String.eqb_refl. Qed.

Lemma create_view (fuel : nat) (path : string) (D : Q)
    (js : list json) (segs : list segment) :
  Forall2 seg_view js segs ->
  create_fixed_segments fuel (single path (document js)) path D
  = windows_from fuel segs D (last_end segs) 0 1.
Proof. apply create_view_fs, single_at. Qed.

Lemma segment_json_view (segs : list segment) :
  Forall2 seg_view (map segment_json segs) segs.
Proof.
  induction segs as [|s segs IH]; constructor; [|exact IH].
  repeat split.
Qed.


Lemma run_eq (fuel : nat) (segs : list segment) (D : Q) :
  run fuel segs D = windows_from fuel segs D (last_end segs) 0 1.
Proof. apply create_view, segment_json_view. Qed.


(** ** Shape of the window list *)

Section Windows.

Variable segs : list segment.
Variables D T : Q.

Lemma windows_from_step (fuel : nat) (ct : Q) (id : Z) (ws : list window) :
  windows_from fuel segs D T ct id = Ok ws ->
  (T <= ct /\ ws = [])
  \/ (ct < T /\ exists fuel' rest,
        fuel = S fuel'
        /\ windows_from fuel' segs D T (Py.min (ct + D) T) (id + 1) = Ok rest
        /\ ws = Window id ct (Py.min (ct + D) T)
                  (assigned_text segs ct (Py.min (ct + D) T)) :: rest).
Proof.
  destruct fuel as [|fuel]; simpl; destruct (Qlt_bool ct T) eqn:E; intro H.
  - discriminate.
  - left. split; [now apply Qlt_bool_false_iff | congruence].
  - right. split; [now apply Qlt_bool_iff|].
    destruct (windows_from fuel segs D T (Py.min (ct + D) T) (id + 1))
      as [rest| |] eqn:Er; try discriminate.
    unfold bind in H. injection H as <-.
    exists fuel, rest. repeat split. exact Er.
  - left. split; [now apply Qlt_bool_false_iff | congruence].
Qed.








End Windows.

(** ** Number of iterations *)



Ltac zconst :=
  change (inject_Z 0) with 0 in *;
  change (inject_Z 1) with 1 in *;
  change (inject_Z (-1)) with (- (1)) in *;
  change (inject_Z (Z.opp 1)) with (- (1)) in *.

Section Counting.

Variable segs : list segment.
Variables D T : Q.
Hypothesis D_pos : 0 < D.



End Counting.


Section Totality.

Variable segs : list segment.
Variable D : Q.
Hypothesis D_pos : 0 < D.

Lemma windows_from_range (T : Q) (fuel : nat) :
  forall (ct : Q) (id : Z) (ws : list window),
    windows_from fuel segs D T ct id = Ok ws ->
    Forall (fun w => ct <= w_start w /\ w_start w < w_end w /\ w_end w <= T) ws.
Proof.
  induction fuel as [|fuel IH]; intros ct id ws H;
    destruct (windows_from_step _ _ _ _ _ _ _ H)
      as [[_ ->]|[Hlt [f [rest [Hf [Hr ->]]]]]];
    try discriminate; constructor.
  - simpl. destruct (min_cases (ct + D) T) as [[Hm ->]|[Hm ->]]; lra.
  - injection Hf as <-. specialize (IH _ _ _ Hr).
    eapply Forall_impl; [|exact IH]. intros w [H1 H2]. split; [|exact H2].
    destruct (min_cases (ct + D) T) as [[Hm Hmin]|[Hm Hmin]];
      rewrite Hmin in H1; lra.
Qed.



End Totality.

(** ** Tiling *)



(** ** Window texts *)

Lemma in_window_iff (a b : Q) (s : segment) :
  in_window a b s = true <-> a <= mid s /\ mid s < b.
Proof.
  unfold in_window. rewrite andb_true_iff, Qle_bool_iff, Qlt_bool_iff. tauto.
Qed.

Lemma in_window_false_iff (a b : Q) (s : segment) :
  in_window a b s = false <-> mid s < a \/ b <= mid s.
Proof.
  unfold in_window. rewrite andb_false_iff, Qlt_bool_false_iff.
  split; (intros [H|H]; [left|right]); try exact H.
  - apply Qnot_le_lt. intro Hle. apply Qle_bool_iff in Hle. congruence.
  - destruct (Qle_bool a (mid s)) eqn:E; [|reflexivity].
    apply Qle_bool_iff in E. lra.
Qed.



(** ** Count, numbering and empty windows *)




(** ** The empty input *)

(** C4: on the document [{"segments": []}] the total duration is 0,
    [create_fixed_segments] returns no window whatever the window length,
    and the program writes the empty document [{"segments": []}] and an
    empty subtitle file. *)
Theorem empty_input (float : string -> option Q) (fuel : nat)
    (path prog : string) (D : Q) :
  total_duration_of (JArr []) = Ok (JNum 0)
  /\ create_fixed_segments fuel (single path (document [])) path D = Ok []
  /\ main float fuel (single path (document [])) [prog; path]
     = Ok [(replace ".json" "_fixed_segments.json" path, JsonDump (document []));
           (replace ".json" "_fixed_segments.srt" path, Text "")]
  /\ exit_status (main float fuel (single path (document [])) [prog; path])
     = Some 0%Z.
Proof.
  assert (H : forall d, create_fixed_segments fuel (single path (document [])) path d
                        = Ok []).
  { intro d. rewrite (create_view fuel path d [] []) by constructor.
    destruct fuel; reflexivity. }
  split; [reflexivity|]. split; [apply H|].
  unfold main. cbn [bind]. rewrite H. split; reflexivity.
Qed.

(** ** Failures *)








(** ** Output paths *)

Lemma replace_absent (old new s : string) :
  contains old s = false -> replace old new s = s.
Proof.
  unfold replace. induction s as [|c s IH]; [reflexivity|].
  intro H. change (String.prefix old (String c s) || contains old s = false) in H.
  apply orb_false_iff in H. destruct H as [Hp Hc].
  cbn [replace_from]. rewrite Hp, (IH Hc). reflexivity.
Qed.

Lemma replace_suffix (new stem : string) :
  contains "." stem = false ->
  replace ".json" new (stem ++ ".json") = (stem ++ new)%string.
Proof.
  unfold replace. induction stem as [|c stem IH]; intro H.
  - cbn. now rewrite append_nil_r.
  - change (String.prefix "." (String c stem) || contains "." stem = false) in H.
    apply orb_false_iff in H. destruct H as [Hp Hc].
    cbn [String.append replace_from].
    cbn [String.prefix] in Hp |- *. destruct (ascii_dec "." c) as [E|E].
    + destruct stem; discriminate Hp.
    + now rewrite (IH Hc).
Qed.

(** On a path [stem.json] whose stem has no dot the outputs go to
    [stem_fixed_segments.json] and [stem_fixed_segments.srt]. *)
Lemma output_paths_json (float : string -> option Q) (fuel : nat)
    (fs : filesystem) (prog stem : string) (ws : list window) :
  contains "." stem = false ->
  create_fixed_segments fuel fs (stem ++ ".json") 5 = Ok ws ->
  main float fuel fs [prog; (stem ++ ".json")%string]
  = Ok [((stem ++ "_fixed_segments.json")%string,
         JsonDump (document (map window_json ws)));
        ((stem ++ "_fixed_segments.srt")%string, Text (save_as_srt ws))].
Proof.
  intros Hc Hrun. unfold main. cbn [bind]. rewrite Hrun. cbn [bind].
  rewrite !(replace_suffix _ _ Hc). reflexivity.
Qed.

(** C6 fails on a path without [.json]: [replace] leaves the path as it is,
    so the JSON output and then the subtitle output are both written over
    the input file. *)
Theorem output_paths_collide (float : string -> option Q) (fuel : nat)
    (fs : filesystem) (prog path : string) (ws : list window) :
  contains ".json" path = false ->
  create_fixed_segments fuel fs path 5 = Ok ws ->
  main float fuel fs [prog; path]
  = Ok [(path, JsonDump (document (map window_json ws)));
        (path, Text (save_as_srt ws))].
Proof.
  intros Hc Hrun. unfold main. cbn [bind]. rewrite Hrun. cbn [bind].
  rewrite !(replace_absent _ _ _ Hc). reflexivity.
Qed.

Lemma output_paths_collide_witness :
  main no_float 2
    (single "transcript.txt"
       (document (map segment_json [Segment 0 5 "a"; Segment 5 10 "b"])))
    ["prog"; "transcript.txt"]
  = Ok [("transcript.txt",
         JsonDump (document (map window_json
                               [Window 1 0 5 "a"; Window 2 5 10 "b"])));
        ("transcript.txt",
         Text (save_as_srt [Window 1 0 5 "a"; Window 2 5 10 "b"]))].
Proof.
  apply (output_paths_collide no_float 2 _ "prog" "transcript.txt").
  - reflexivity.
  - reflexivity.
Defined.

(** ** Trimming *)










(** ** Feeding the windows back *)




Section SecondPass.

Variable segs : list segment.
Variables D T : Q.
Hypothesis D_pos : 0 < D.



End SecondPass.






(** ** Subtitle rendering *)

Lemma fold_write_entry (ws : list window) :
  forall f,
    fold_left write_entry ws f
    = (f ++ String.concat "" (map (fun w => srt_entry (w_id w) w) ws))%string.
Proof.
  induction ws as [|w ws IH]; intro f.
  - simpl. now rewrite append_nil_r.
  - cbn [fold_left map]. rewrite IH, concat_cons.
    unfold write_entry, srt_entry. rewrite !append_assoc. reflexivity.
Qed.

Lemma save_as_srt_entries (ws : list window) :
  save_as_srt ws = String.concat "" (map (fun w => srt_entry (w_id w) w) ws).
Proof. apply fold_write_entry. Qed.

Lemma all_from_spec (f : N -> bool) (k : nat) :
  forall start n,
    all_from f start k = true ->
    (start <= n)%N -> (n < start + N.of_nat k)%N -> f n = true.
Proof.
  induction k as [|k IH]; intros start n H Hlo Hhi; [lia|].
  simpl in H. apply andb_true_iff in H. destruct H as [H0 H1].
  destruct (N.eq_dec n start) as [->|Hne]; [exact H0|].
  apply (IH (N.succ start)); [exact H1 | lia | lia].
Qed.

Lemma pymod_range (x m : Q) : 0 < m -> 0 <= pymod x m /\ pymod x m < m.
Proof.
  intro Hm. unfold pymod, floordiv.
  pose proof (Qfloor_le (x / m)) as Hlo.
  pose proof (Qlt_floor (x / m)) as Hhi.
  rewrite inject_Z_plus in Hhi. zconst.
  assert (Hx : x == m * (x / m)) by (field; lra).
  assert (H1 : m * inject_Z (Qfloor (x / m)) <= m * (x / m))
    by (apply Qmult_le_l; assumption).
  assert (H2 : m * (x / m) < m * (inject_Z (Qfloor (x / m)) + 1))
    by (apply Qmult_lt_l; assumption).
  split; lra.
Qed.

Lemma floordiv_range (x m : Q) (k : Z) :
  0 < m -> 0 <= x -> x < inject_Z k * m ->
  (0 <= floordiv x m < k)%Z.
Proof.
  intros Hm Hx Hk. unfold floordiv. split.
  - change 0%Z with (Qfloor 0). apply Qfloor_resp_le.
    apply Qle_shift_div_l; [exact Hm | lra].
  - rewrite Zlt_Qlt. apply Qle_lt_trans with (x / m); [apply Qfloor_le|].
    apply Qlt_shift_div_r; assumption.
Qed.

Lemma round_half_even_range (x : Q) :
  (Qfloor x <= round_half_even x <= Qfloor x + 1)%Z.
Proof.
  unfold round_half_even.
  destruct (Qlt_bool (x - inject_Z (Qfloor x)) (1 # 2)); [lia|].
  destruct (Qlt_bool (1 # 2) (x - inject_Z (Qfloor x))); [lia|].
  destruct (Z.even (Qfloor x)); lia.
Qed.

(** *** Digits *)

Lemma uint_digits (d : Decimal.uint) :
  all_digits (NilEmpty.string_of_uint d) = true.
Proof. induction d; simpl; try rewrite IHd; reflexivity. Qed.

Lemma decimal_digits (n : N) :
  all_digits (decimal n) = true /\ (1 <= String.length (decimal n))%nat.
Proof.
  unfold decimal, NilZero.string_of_uint.
  destruct (N.to_uint n) as [|d|d|d|d|d|d|d|d|d|d] eqn:E;
    try (split; [reflexivity | simpl; lia]);
    (split; [apply (uint_digits (_ d)) | simpl; lia]).
Qed.

Lemma zeros_digits (k : nat) (s : string) :
  all_digits (zeros k ++ s) = all_digits s.
Proof. induction k as [|k IH]; [reflexivity | simpl; exact IH]. Qed.

Lemma zeros_length (k : nat) : String.length (zeros k) = k.
Proof. induction k as [|k IH]; [reflexivity | simpl; now rewrite IH]. Qed.

Lemma hours_shape (n : Z) :
  (0 <= n)%Z ->
  all_digits (format_02d n) = true /\ (2 <= String.length (format_02d n))%nat.
Proof.
  intro Hn. unfold format_02d.
  replace (n <? 0)%Z with false by (symmetry; apply Z.ltb_ge; exact Hn).
  destruct (decimal_digits (Z.to_N n)) as [Hd Hl]. unfold zfill. split.
  - rewrite zeros_digits. exact Hd.
  - rewrite append_length, zeros_length. lia.
Qed.

Lemma minutes_check :
  all_from (fun n => two_digits (format_02d (Z.of_N n))) 0 60 = true.
Proof. vm_compute. reflexivity. Qed.

Lemma seconds_check :
  all_from (fun m => seconds_shape (zfill 6 (fixed3 m))) 0 (N.to_nat 60001) = true.
Proof. vm_compute. reflexivity. Qed.

Lemma minutes_shape (n : Z) :
  (0 <= n < 60)%Z -> two_digits (format_02d n) = true.
Proof.
  intro Hn. rewrite <- (Z2N.id n) by lia.
  apply (all_from_spec (fun n => two_digits (format_02d (Z.of_N n))) 60 0);
    [exact minutes_check | lia | lia].
Qed.

Lemma Qabs_nonneg (x : Q) : 0 <= x -> Qabs x = x.
Proof.
  destruct x as [n d]. unfold Qle, Qabs. simpl. intro H.
  rewrite Z.abs_eq by lia. reflexivity.
Qed.

Lemma seconds_shape_ok (x : Q) :
  0 <= x -> x < 60 -> seconds_shape (format_063f x) = true.
Proof.
  intros Hlo Hhi. unfold format_063f.
  replace (Qlt_bool x 0) with false by (symmetry; apply Qlt_bool_false_iff; exact Hlo).
  rewrite Qabs_nonneg by exact Hlo.
  apply (all_from_spec (fun m => seconds_shape (zfill 6 (fixed3 m)))
           (N.to_nat 60001) 0); [exact seconds_check | lia |].
  pose proof (round_half_even_range (x * 1000)) as [_ Hr].
  assert (Qfloor (x * 1000) < 60000)%Z.
  { rewrite Zlt_Qlt. apply Qle_lt_trans with (x * 1000); [apply Qfloor_le|].
    change (inject_Z 60000) with 60000. lra. }
  lia.
Qed.

Lemma clock_tail_glue (a b : string) :
  two_digits a = true -> seconds_shape b = true ->
  clock_tail (a ++ ":" ++ b) = true.
Proof.
  destruct a as [|m1 [|m2 [|? ?]]]; try discriminate.
  destruct b as [|s1 [|s2 [|dot [|d1 [|d2 [|d3 [|? ?]]]]]]]; try discriminate.
  simpl. intros Ha Hb. rewrite Ha. exact Hb.
Qed.

(** The time line of a non-negative time: hours of at least two digits,
    then [:MM:SS.mmm]. *)
Lemma timestamp_shape (t : Q) :
  0 <= t ->
  exists hh tail,
    timestamp t = (hh ++ ":" ++ tail)%string
    /\ all_digits hh = true
    /\ (2 <= String.length hh)%nat
    /\ clock_tail tail = true.
Proof.
  intro Ht. unfold timestamp.
  exists (format_02d (floordiv t 3600)),
    (format_02d (floordiv (pymod t 3600) 60) ++ ":" ++ format_063f (pymod t 60))%string.
  split; [reflexivity|].
  assert (Hh : (0 <= floordiv t 3600)%Z).
  { unfold floordiv. change 0%Z with (Qfloor 0). apply Qfloor_resp_le.
    apply Qle_shift_div_l; lra. }
  destruct (hours_shape _ Hh) as [H1 H2].
  split; [exact H1|]. split; [exact H2|].
  destruct (pymod_range t 3600 eq_refl) as [Hp1 Hp2].
  destruct (pymod_range t 60 eq_refl) as [Hs1 Hs2].
  apply clock_tail_glue.
  - apply minutes_shape. apply floordiv_range; [reflexivity | exact Hp1|].
    change (inject_Z 60) with 60. lra.
  - apply seconds_shape_ok; assumption.
Qed.

(** ** The orchestrator *)

Import Orchestrator.

Section Orchestration.

Variable maxRetries : nat.

Ltac break_job j :=
  destruct j as [st fr tr rc ar er]; unfold invariant, analyzing in *;
  cbn [job_stage frames transcript retryCount analysis_retried errors] in *.

Ltac settle :=
  cbn in *;
  intuition (subst; cbn in *; try discriminate; try congruence; try lia).

Ltac attempt_split b fr tr s :=
  unfold Orchestrator.step, on_attempt; cbn [job_stage];
  destruct b, fr, tr, s;
  cbn [in_flight branch_of frames transcript];
  try solve [settle];
  unfold bump; cbn [retryCount branch_eqb];
  match goal with |- context [Nat.ltb ?x ?y] => destruct (Nat.ltb x y) end;
  settle.


Lemma invariant_step (j : job) (e : event) :
  invariant j -> invariant (step maxRetries j e).
Proof.
  intro H. destruct e as [|b s|b| |]; break_job j.
  - destruct st; settle.
  - destruct st; try exact H. attempt_split b fr tr s.
  - destruct st; try exact H. destruct b, fr, tr; settle.
  - unfold step. cbn [job_stage]. destruct st; try exact H.
    destruct (Nat.ltb n 4); settle.
  - destruct st; try exact H. destruct ar; settle.
Qed.

Lemma reachable_invariant (j : job) : reachable maxRetries j -> invariant j.
Proof.
  induction 1 as [|j e _ IH]; [|apply invariant_step; exact IH].
  unfold invariant, analyzing. settle.
Qed.

Lemma failed_absorbing (j : job) (es : list event) :
  job_stage j = Failed -> job_stage (run_events maxRetries j es) = Failed.
Proof.
  revert j. induction es as [|e es IH]; intros j H; [exact H|].
  apply IH. destruct j as [st fr tr rc ar er]. cbn in H. subst st.
  destruct e; reflexivity.
Qed.

(** C9: in every state of a job, a step out of [processing] enters
    [analyzing] if and only if both branches are done after it; a job in
    [processing] never has both branches done, a job in [analyzing] has
    both; [analyzing] is entered from [processing] only, at stage 1; and
    once a branch has failed no sequence of events leads to [analyzing]. *)
Theorem join_fires_iff (j : job) :
  reachable maxRetries j ->
  (forall e, job_stage j = Processing ->
             (analyzing (step maxRetries j e)
              <-> both_done (step maxRetries j e) = true))
  /\ (job_stage j = Processing -> both_done j = false)
  /\ (analyzing j -> both_done j = true)
  /\ (forall e, analyzing (step maxRetries j e) ->
                analyzing j
                \/ (job_stage j = Processing
                    /\ job_stage (step maxRetries j e) = Analyzing 1))
  /\ (frames j = BranchFailed \/ transcript j = BranchFailed ->
      forall es, ~ analyzing (run_events maxRetries j es)).
Proof.
  intro Hr. pose proof (reachable_invariant j Hr) as H. repeat split.
  - intro Ha. pose proof (invariant_step j e H) as H'.
    destruct H' as [_ [H' _]]. destruct (H' (or_introl Ha)) as [Hf Ht].
    unfold both_done. rewrite Hf, Ht. reflexivity.
  - destruct e as [|b s|b| |]; break_job j; subst st.
    + settle.
    + attempt_split b fr tr s.
    + destruct b, fr, tr; settle.
    + settle.
    + settle.
  - intro Hp. destruct H as [H _]. exact (proj1 (H Hp)).
  - intro Ha. destruct H as [_ [H _]]. destruct (H (or_introl Ha)) as [Hf Ht].
    unfold both_done. rewrite Hf, Ht. reflexivity.
  - intros e. destruct e as [|b s|b| |]; break_job j.
    + destruct st; settle.
    + destruct st; try solve [settle]. attempt_split b fr tr s.
    + destruct st; try solve [settle]. destruct b, fr, tr; settle.
    + destruct st; settle.
    + destruct st; try solve [settle]; destruct ar; settle.
  - intros Hb es Ha. destruct H as [_ [_ [H _]]].
    unfold analyzing in Ha. rewrite (failed_absorbing j es (H Hb)) in Ha.
    discriminate.
Qed.


End Orchestration.

Lemma join_fires_iff_witness :
  ((forall e, job_stage frames_first = Processing ->
              (analyzing (step 3 frames_first e)
               <-> both_done (step 3 frames_first e) = true))
   /\ (job_stage frames_first = Processing -> both_done frames_first = false)
   /\ (analyzing frames_first -> both_done frames_first = true)
   /\ (forall e, analyzing (step 3 frames_first e) ->
                 analyzing frames_first
                 \/ (job_stage frames_first = Processing
                     /\ job_stage (step 3 frames_first e) = Analyzing 1))
   /\ (frames frames_first = BranchFailed \/ transcript frames_first = BranchFailed ->
       forall es, ~ analyzing (run_events 3 frames_first es)))
  /\ job_stage frames_first = Processing
  /\ job_stage (step 3 frames_first (Attempt Transcript Ready)) = Analyzing 1
  /\ job_stage (run_events 3 initial [SubmitUpload; Attempt Transcript Ready])
     = Processing
  /\ job_stage (run_events 3 initial
                  [SubmitUpload; Attempt Transcript Ready; Attempt Frames Ready])
     = Analyzing 1
  /\ job_stage (run_events 3 initial
                  [SubmitUpload; Attempt Transcript (ProviderFailed "timeout");
                   Attempt Frames Ready])
     = Failed.
Proof.
  split; [|repeat split].
  apply (join_fires_iff 3 frames_first).
  change (reachable 3 (step 3 (step 3 initial SubmitUpload) (Attempt Frames Ready))).
  apply reach_step, reach_step, reach_initial.
Defined.



(** ** The subtitle file *)

Lemma windows_from_numbered (segs : list segment) (D T : Q) (fuel : nat) :
  forall (ct : Q) (id : Z) (ws : list window),
    windows_from fuel segs D T ct id = Ok ws ->
    map (fun w => srt_entry (w_id w) w) ws = numbered id ws.
Proof.
  induction fuel as [|fuel IH]; intros ct id ws H;
    destruct (windows_from_step _ _ _ _ _ _ _ H)
      as [[_ ->]|[_ [f [rest [Hf [Hr ->]]]]]];
    try discriminate; try reflexivity.
  injection Hf as <-. cbn [map numbered w_id]. now rewrite (IH _ _ _ Hr).
Qed.

(** C7, as the code has it: [save_as_srt] writes one entry per window, in
    order: the id of the window, which is its position (from 1) for the
    windows of [create_fixed_segments]; the line [start --> end]; the text;
    and a blank line.  A non-negative time is rendered as hours of at least
    two digits, [:], two digits of minutes, [:], two digits of seconds, [.]
    and three decimals; the times of the windows are non-negative. *)
Theorem srt_rendering :
  (forall ws,
      save_as_srt ws = String.concat "" (map (fun w => srt_entry (w_id w) w) ws))
  /\ (forall segs D fuel ws,
         run fuel segs D = Ok ws ->
         save_as_srt ws = String.concat "" (numbered 1 ws))
  /\ (forall segs D fuel ws,
         0 < D ->
         run fuel segs D = Ok ws ->
         Forall (fun w => 0 <= w_start w /\ 0 <= w_end w) ws)
  /\ (forall t,
         0 <= t ->
         exists hh tail,
           timestamp t = (hh ++ ":" ++ tail)%string
           /\ all_digits hh = true
           /\ (2 <= String.length hh)%nat
           /\ clock_tail tail = true).
Proof.
  split; [exact save_as_srt_entries|]. split; [|split; [|exact timestamp_shape]].
  - intros segs D fuel ws H. rewrite run_eq in H.
    rewrite save_as_srt_entries, (windows_from_numbered _ _ _ _ _ _ _ H).
    reflexivity.
  - intros segs D fuel ws HD H. rewrite run_eq in H.
    pose proof (windows_from_range segs D HD _ _ _ _ _ H) as Hr.
    eapply Forall_impl; [|exact Hr]. intros w [H1 [H2 H3]]. split; lra.
Qed.

Lemma srt_rendering_witness :
  save_as_srt [Window 1 0 5 "a"; Window 2 5 10 "b"]
  = String.concat "" (numbered 1 [Window 1 0 5 "a"; Window 2 5 10 "b"])
  /\ Forall (fun w => 0 <= w_start w /\ 0 <= w_end w)
       [Window 1 0 5 "a"; Window 2 5 10 "b"]
  /\ (exists hh tail,
         timestamp (7384 + (1 # 4)) = (hh ++ ":" ++ tail)%string
         /\ all_digits hh = true
         /\ (2 <= String.length hh)%nat
         /\ clock_tail tail = true)
  /\ timestamp (7384 + (1 # 4)) = "02:03:04.250".
Proof.
  split; [|split; [|split]].
  - apply (proj1 (proj2 srt_rendering) [Segment 0 5 "a"; Segment 5 10 "b"] 5 2%nat).
    reflexivity.
  - apply (proj1 (proj2 (proj2 srt_rendering))
             [Segment 0 5 "a"; Segment 5 10 "b"] 5 2%nat); reflexivity.
  - apply (proj2 (proj2 (proj2 srt_rendering)) (7384 + (1 # 4))). discriminate.
  - reflexivity.
Defined.

(** C7 as stated fails: the number written is the id of the entry, whatever
    its position, and 59.9996 seconds are rendered [60.000]; the second
    happens on the output of [create_fixed_segments] too. *)
Lemma srt_rendering_counterexample :
  save_as_srt [Window 7 0 (599996 # 10000) "x"]
  = ("7" ++ nl ++ "00:00:00.000 --> 00:00:60.000" ++ nl ++ "x" ++ nl ++ nl)%string
  /\ run 1 [Segment 0 (599996 # 10000) "x"] 60
     = Ok [Window 1 0 (599996 # 10000) "x"]
  /\ save_as_srt [Window 1 0 (599996 # 10000) "x"]
     = ("1" ++ nl ++ "00:00:00.000 --> 00:00:60.000" ++ nl ++ "x" ++ nl ++ nl)%string.
Proof. repeat split. Qed.

(** * Further properties of [scripts/whisper_fixed_segments.py] *)

(** ** Window lengths that are not positive *)

Lemma windows_from_diverges (segs : list segment) (D T : Q) (fuel : nat) :
  D <= 0 ->
  forall (ct : Q) (id : Z),
    ct < T -> windows_from fuel segs D T ct id = OutOfFuel.
Proof.
  intro HD. induction fuel as [|fuel IH]; intros ct id Hct; simpl;
    replace (Qlt_bool ct T) with true by (symmetry; apply Qlt_bool_iff; exact Hct);
    [reflexivity|].
  rewrite IH; [reflexivity|].
  destruct (min_cases (ct + D) T) as [[Hm ->]|[Hm ->]]; lra.
Qed.

(** X1: with a window length that is zero or negative and a last segment that
    ends after 0 the [while] loop never ends: no number of iterations gives
    a result. *)
Theorem nonpositive_length_diverges (segs : list segment) (D : Q) :
  0 < last_end segs ->
  D <= 0 ->
  forall fuel, run fuel segs D = OutOfFuel.
Proof.
  intros HT HD fuel. rewrite run_eq.
  apply windows_from_diverges; assumption.
Qed.

Lemma nonpositive_length_diverges_witness :
  run 1000 [Segment 0 5 "a"; Segment 5 10 "b"] 0 = OutOfFuel.
Proof.
  apply (nonpositive_length_diverges [Segment 0 5 "a"; Segment 5 10 "b"] 0).
  - reflexivity.
  - discriminate.
Defined.

(** ** What is read of the document *)

(** X2: when the last element of [segments] ends at 0 or before, no window is
    made and the other elements are not looked at: whatever they are, the
    result is the empty list, for every window length. *)
Theorem nonpositive_total_ignores_rest (fuel : nat) (fs : filesystem)
    (path : string) (D : Q) (items : list (string * json)) (js : list json)
    (j v : json) (q : Q) :
  fs path = Some (Document (JObj items)) ->
  assoc "segments" items = Some (JArr js) ->
  last_item js = Some j ->
  getitem j "end" = Ok v ->
  as_number v = Some q ->
  q <= 0 ->
  create_fixed_segments fuel fs path D = Ok [].
Proof.
  intros Hfs Hseg Hlast Hend Hnum Hq.
  unfold create_fixed_segments. rewrite Hfs. unfold getitem at 1. rewrite Hseg.
  cbn [bind]. unfold total_duration_of.
  replace (truthy (JArr js)) with true
    by (destruct js; [discriminate Hlast | reflexivity]).
  unfold getitem_last. rewrite Hlast. cbn [bind]. rewrite Hend. cbn [bind].
  unfold comparable. rewrite Hnum. cbn [bind].
  assert (E : Qlt_bool 0 q = false) by (apply Qlt_bool_false_iff; exact Hq).
  destruct fuel; simpl; rewrite E; reflexivity.
Qed.

Lemma nonpositive_total_ignores_rest_witness :
  create_fixed_segments 0
    (single "in.json"
       (JObj [("segments",
               JArr [JStr "noise"; JNum 42; JObj [("end", JNum 0)]])]))
    "in.json" 5 = Ok [].
Proof.
  apply (nonpositive_total_ignores_rest 0 _ "in.json" 5
           [("segments", JArr [JStr "noise"; JNum 42; JObj [("end", JNum 0)]])]
           [JStr "noise"; JNum 42; JObj [("end", JNum 0)]]
           (JObj [("end", JNum 0)]) (JNum 0) 0);
    try reflexivity.
  discriminate.
Defined.

Lemma last_char_some (c : ascii) (s : string) : last_char (String c s) <> None.
Proof.
  revert c. induction s as [|d s IH]; intro c; [discriminate|].
  exact (IH d).
Qed.

(** X3: a [segments] value that is not a list: when it is falsy ([null],
    [false], 0, the empty string, the empty object) the result is the empty
    list, without any error; otherwise indexing it fails, with [KeyError]
    for an object and [TypeError] for a number, [true] or a string. *)
Theorem segments_not_a_list (fuel : nat) (fs : filesystem) (path : string)
    (D : Q) (items : list (string * json)) (v : json) :
  fs path = Some (Document (JObj items)) ->
  assoc "segments" items = Some v ->
  (forall l, v <> JArr l) ->
  create_fixed_segments fuel fs path D
  = if truthy v
    then Raise (match v with JObj _ => KeyError | _ => TypeError end)
    else Ok [].
Proof.
  intros Hfs Hseg Hnl.
  unfold create_fixed_segments. rewrite Hfs. unfold getitem at 1. rewrite Hseg.
  cbn [bind]. unfold total_duration_of.
  assert (Hempty : forall seg, while_loop fuel seg D 0 0 1 [] = Ok [])
    by (intro seg; destruct fuel; reflexivity).
  destruct v as [|b|q|s|l|kv].
  - cbn. apply Hempty.
  - destruct b; cbn; [reflexivity | apply Hempty].
  - cbn [truthy]. destruct (Qeq_bool q 0); cbn; [apply Hempty | reflexivity].
  - destruct s as [|c s]; [cbn; apply Hempty|].
    cbn [truthy String.eqb negb]. unfold getitem_last.
    replace (String.eqb (String c s) "") with false by reflexivity.
    cbn [negb]. destruct (last_char (String c s)) eqn:E;
      [reflexivity | exfalso; exact (last_char_some c s E)].
  - exfalso. exact (Hnl l eq_refl).
  - destruct kv; cbn; [apply Hempty | reflexivity].
Qed.

Lemma segments_not_a_list_witness :
  create_fixed_segments 0
    (single "in.json" (JObj [("segments", JNull)])) "in.json" 5 = Ok []
  /\ create_fixed_segments 0
       (single "in.json" (JObj [("segments", JObj [("end", JNum 9)])]))
       "in.json" 5 = Raise KeyError.
Proof.
  split.
  - apply (segments_not_a_list 0 _ "in.json" 5 [("segments", JNull)] JNull);
      try reflexivity. discriminate.
  - apply (segments_not_a_list 0 _ "in.json" 5
             [("segments", JObj [("end", JNum 9)])] (JObj [("end", JNum 9)]));
      try reflexivity. discriminate.
Defined.

(** ** Where the windows lie *)





Lemma holders_from (segs : list segment) (D T : Q) (s : segment) (fuel : nat) :
  0 < D ->
  forall (ct : Q) (id : Z) (ws : list window),
    windows_from fuel segs D T ct id = Ok ws ->
    List.length (holders ws s) = if in_window ct T s then 1%nat else 0%nat.
Proof.
  intro HD. induction fuel as [|fuel IH]; intros ct id ws H;
    destruct (windows_from_step _ _ _ _ _ _ _ H)
      as [[Hge ->]|[Hlt [f [rest [Hf [Hr ->]]]]]];
    try discriminate.
  1, 2: replace (in_window ct T s) with false; [reflexivity|];
    symmetry; apply in_window_false_iff;
    destruct (Qlt_le_dec (mid s) ct); [left; assumption | right; lra].
  injection Hf as <-. specialize (IH _ _ _ Hr).
  set (e := Py.min (ct + D) T) in *.
  assert (He : ct < e /\ e <= T).
  { unfold e. destruct (min_cases (ct + D) T) as [[? ->]|[? ->]]; lra. }
  unfold holders in *. cbn [filter w_start w_end].
  destruct (in_window ct e s) eqn:Ein.
  - apply in_window_iff in Ein. cbn [List.length]. rewrite IH.
    replace (in_window e T s) with false
      by (symmetry; apply in_window_false_iff; left; lra).
    replace (in_window ct T s) with true
      by (symmetry; apply in_window_iff; lra).
    reflexivity.
  - apply in_window_false_iff in Ein. rewrite IH.
    destruct (in_window e T s) eqn:E2.
    + apply in_window_iff in E2.
      replace (in_window ct T s) with true
        by (symmetry; apply in_window_iff; lra).
      reflexivity.
    + apply in_window_false_iff in E2.
      replace (in_window ct T s) with false; [reflexivity|].
      symmetry; apply in_window_false_iff. destruct Ein, E2; try (left; lra);
        try (right; lra).
Qed.

(** X5: with a positive window length, a segment whose midpoint lies in
    [0, T) is in exactly one window, and any other segment is in none: no
    text is assigned twice. *)
Theorem one_window_per_segment (segs : list segment) (D : Q) (fuel : nat)
    (ws : list window) (s : segment) :
  0 < D ->
  run fuel segs D = Ok ws ->
  List.length (holders ws s)
  = if inside (last_end segs) s then 1%nat else 0%nat.
Proof.
  intros HD H. rewrite run_eq in H.
  exact (holders_from _ _ _ s _ HD _ _ _ H).
Qed.

Lemma one_window_per_segment_witness :
  List.length
    (holders [Window 1 0 3 "x y"; Window 2 3 6 "z"; Window 3 6 7 ""]
       (Segment 2 7 "z")) = 1%nat.
Proof.
  apply (one_window_per_segment
           [Segment 0 1 " x "; Segment 1 2 "y"; Segment 2 7 "z"] 3 3
           [Window 1 0 3 "x y"; Window 2 3 6 "z"; Window 3 6 7 ""]
           (Segment 2 7 "z")); reflexivity.
Defined.

(** ** Segments without a text *)

Lemma collect_loose (a b : Q) (js : list json) (ls : list loose) :
  Forall2 loose_view js ls ->
  forall acc,
    collect js a b acc
    = if missing_text a b ls then Raise KeyError
      else Ok (acc ++ map (fun s => strip (seg_text s))
                        (filter (in_window a b) (map fill ls))).
Proof.
  induction 1 as [|j l js ls [Hs [He Ht]] _ IH]; intro acc.
  - simpl. now rewrite app_nil_r.
  - cbn [collect missing_text existsb map filter]. rewrite Hs, He. cbn [bind].
    unfold midpoint. cbn [as_number bind].
    change ((l_start l + l_end l) / 2) with (mid (fill l)).
    change (Qle_bool a (mid (fill l)) && Qlt_bool (mid (fill l)) b)
      with (in_window a b (fill l)).
    destruct (in_window a b (fill l)); cbn [andb orb].
    + rewrite Ht. unfold fill at 2. destruct (l_text l) as [t|]; cbn [bind strip_method].
      * rewrite IH. fold (missing_text a b ls).
        destruct (missing_text a b ls); [reflexivity|].
        cbn [seg_text map]. now rewrite <- app_assoc.
      * reflexivity.
    + rewrite IH. reflexivity.
Qed.

Lemma missing_text_none (a b : Q) (ls : list loose) :
  (forall l, In l ls -> in_window a b (fill l) = true -> l_text l <> None) ->
  missing_text a b ls = false.
Proof.
  intro H. unfold missing_text.
  destruct (existsb _ ls) eqn:E; [|reflexivity].
  apply existsb_exists in E. destruct E as [l [Hin Hl]].
  apply andb_true_iff in Hl. destruct Hl as [Hw Hn].
  specialize (H l Hin Hw). destruct (l_text l); [discriminate | congruence].
Qed.


Section Loose.

Variable js : list json.
Variable ls : list loose.
Variables D T : Q.
Hypothesis view : Forall2 loose_view js ls.
Hypothesis D_pos : 0 < D.

Lemma while_loop_loose_ok (fuel : nat) :
  (forall l, In l ls -> in_window 0 T (fill l) = true -> l_text l <> None) ->
  forall ct id acc,
    0 <= ct ->
    while_loop fuel (JArr js) D T ct id acc
    = (ws <- windows_from fuel (map fill ls) D T ct id ;; Ok (acc ++ ws)).
Proof.
  intro Hall. induction fuel as [|fuel IH]; intros ct id acc Hct; simpl.
  - destruct (Qlt_bool ct T); simpl; [reflexivity | now rewrite app_nil_r].
  - destruct (Qlt_bool ct T) eqn:E; simpl; [| now rewrite app_nil_r].
    apply Qlt_bool_iff in E.
    assert (He : ct < Py.min (ct + D) T /\ Py.min (ct + D) T <= T).
    { destruct (min_cases (ct + D) T) as [[? ->]|[? ->]]; lra. }
    rewrite (collect_loose _ _ _ _ view), missing_text_none.
    + cbn [bind]. rewrite IH by lra. unfold assigned_text.
      destruct (windows_from fuel (map fill ls) D T (Py.min (ct + D) T) (id + 1));
        simpl; [rewrite <- app_assoc|..]; reflexivity.
    + intros l Hin Hw. apply (Hall l Hin).
      apply in_window_iff in Hw. apply in_window_iff. lra.
Qed.


End Loose.

Lemma last_item_loose (js : list json) (ls : list loose) :
  Forall2 loose_view js ls ->
  js <> [] ->
  exists j, last_item js = Some j
            /\ getitem j "end" = Ok (JNum (last_end (map fill ls))).
Proof.
  induction 1 as [|j l js ls [_ [He _]] Hrest IH]; intro Hne; [congruence|].
  destruct Hrest as [|j' l' js' ls' Hv' Hrest'].
  - exists j. split; [reflexivity | exact He].
  - destruct IH as [j0 [Hl Hg]]; [discriminate|].
    exists j0. split; [exact Hl | exact Hg].
Qed.

Lemma create_loose (fuel : nat) (path : string) (D : Q)
    (js : list json) (ls : list loose) :
  Forall2 loose_view js ls ->
  create_fixed_segments fuel (single path (document js)) path D
  = while_loop fuel (JArr js) D (last_end (map fill ls)) 0 1 [].
Proof.
  intro Hv. unfold create_fixed_segments. rewrite single_at.
  cbn [document getitem assoc String.eqb Ascii.eqb Bool.eqb bind]. simpl.
  destruct js as [|j js].
  - inversion Hv; subst. reflexivity.
  - destruct (last_item_loose _ _ Hv) as [j0 [Hl Hg]]; [discriminate|].
    unfold total_duration_of. cbn [truthy]. unfold getitem_last. rewrite Hl.
    cbn [bind]. rewrite Hg. reflexivity.
Qed.

(** X6: the key [text] is read only of the segments whose midpoint lies in
    [0, T): when those have a text, the windows are computed as if the
    others had an empty one, and nothing is raised for the missing keys. *)
Theorem text_read_only_inside (fuel : nat) (path : string) (D : Q)
    (js : list json) (ls : list loose) :
  Forall2 loose_view js ls ->
  0 < D ->
  (forall l, In l ls ->
             inside (last_end (map fill ls)) (fill l) = true ->
             l_text l <> None) ->
  create_fixed_segments fuel (single path (document js)) path D
  = run fuel (map fill ls) D.
Proof.
  intros Hv HD Hall. rewrite (create_loose _ _ _ _ _ Hv), run_eq.
  rewrite (while_loop_loose_ok js ls D _ Hv HD fuel Hall) by apply Qle_refl.
  apply bind_ok_nil.
Qed.

Lemma text_read_only_inside_witness :
  create_fixed_segments 2
    (single "in.json"
       (document [JObj [("start", JNum 0); ("end", JNum 4); ("text", JStr "a")];
                  JObj [("start", JNum 9); ("end", JNum 11)];
                  JObj [("start", JNum 4); ("end", JNum 8); ("text", JStr "b")]]))
    "in.json" 5
  = run 2 [Segment 0 4 "a"; Segment 9 11 ""; Segment 4 8 "b"] 5.
Proof.
  apply (text_read_only_inside 2 "in.json" 5 _
           [Loose 0 4 (Some "a"); Loose 9 11 None; Loose 4 8 (Some "b")]).
  - repeat constructor.
  - reflexivity.
  - intros l [<-|[<-|[<-|[]]]]; cbn; discriminate.
Defined.



(** ** Windows of another length from the windows written *)





(** ** Output paths that differ *)






(** ** The time a time line denotes *)

Lemma Qfloor_unique (x : Q) (n : Z) :
  inject_Z n <= x -> x < inject_Z n + 1 -> Qfloor x = n.
Proof.
  intros Hlo Hhi.
  pose proof (Qfloor_le x) as H1. pose proof (Qlt_floor x) as H2.
  rewrite inject_Z_plus in H2. zconst.
  assert (Qfloor x < n + 1)%Z.
  { rewrite Zlt_Qlt, inject_Z_plus. zconst. lra. }
  assert (n < Qfloor x + 1)%Z.
  { rewrite Zlt_Qlt, inject_Z_plus. zconst. lra. }
  lia.
Qed.




Lemma millis_range (t : Q) :
  (0 <= round_half_even (pymod t 60 * 1000) <= 60000)%Z.
Proof.
  destruct (pymod_range t 60 eq_refl) as [Hlo Hhi].
  pose proof (round_half_even_range (pymod t 60 * 1000)) as [Hr1 Hr2].
  assert (0 <= Qfloor (pymod t 60 * 1000))%Z.
  { change 0%Z with (Qfloor 0). apply Qfloor_resp_le. lra. }
  assert (Qfloor (pymod t 60 * 1000) < 60000)%Z.
  { rewrite Zlt_Qlt. apply Qle_lt_trans with (pymod t 60 * 1000); [apply Qfloor_le|].
    change (inject_Z 60000) with 60000. lra. }
  lia.
Qed.


(** ** Seconds rendered as 60.000 *)

Lemma below_sixty_check :
  all_from (fun m => negb (String.eqb (zfill 6 (fixed3 m)) "60.000"))
    0 (N.to_nat 60000) = true.
Proof. vm_compute. reflexivity. Qed.

Lemma millis_sixty (x : Q) :
  0 <= x -> x < 60 ->
  (round_half_even (x * 1000) = 60000%Z <-> (119999 # 2000) <= x).
Proof.
  intros Hlo Hhi. unfold round_half_even.
  pose proof (Qfloor_le (x * 1000)) as H1. pose proof (Qlt_floor (x * 1000)) as H2.
  rewrite inject_Z_plus in H2. zconst.
  assert (Hf : (Qfloor (x * 1000) < 60000)%Z).
  { rewrite Zlt_Qlt. change (inject_Z 60000) with 60000. lra. }
  split.
  - intro H.
    destruct (Qlt_bool (x * 1000 - inject_Z (Qfloor (x * 1000))) (1 # 2)) eqn:E1;
      [lia|].
    apply Qlt_bool_false_iff in E1.
    assert (Qfloor (x * 1000) = 59999%Z) as Ef.
    { destruct (Qlt_bool (1 # 2) (x * 1000 - inject_Z (Qfloor (x * 1000))));
        [lia|]. destruct (Z.even (Qfloor (x * 1000))); lia. }
    rewrite Ef in E1. change (inject_Z 59999) with 59999 in E1. lra.
  - intro H.
    assert (Ef : Qfloor (x * 1000) = 59999%Z).
    { apply Qfloor_unique; change (inject_Z 59999) with 59999; lra. }
    rewrite Ef. change (inject_Z 59999) with 59999.
    replace (Qlt_bool (x * 1000 - 59999) (1 # 2)) with false
      by (symmetry; apply Qlt_bool_false_iff; lra).
    destruct (Qlt_bool (1 # 2) (x * 1000 - 59999)); reflexivity.
Qed.

(** X13: the seconds of a time line read [60.000] exactly when the seconds part
    of the time is 59.9995 or more: the rounding to three decimals is made
    after the minutes are taken out. *)
Theorem seconds_sixty (t : Q) :
  format_063f (pymod t 60) = "60.000" <-> (119999 # 2000) <= pymod t 60.
Proof.
  destruct (pymod_range t 60 eq_refl) as [Hlo Hhi].
  pose proof (millis_range t) as Hr.
  unfold format_063f.
  replace (Qlt_bool (pymod t 60) 0) with false
    by (symmetry; apply Qlt_bool_false_iff; exact Hlo).
  rewrite Qabs_nonneg by exact Hlo.
  rewrite <- (millis_sixty _ Hlo Hhi). split.
  - intro H.
    destruct (Z.eq_dec (round_half_even (pymod t 60 * 1000)) 60000) as [E|E];
      [exact E|].
    pose proof (all_from_spec _ _ 0 (Z.to_N (round_half_even (pymod t 60 * 1000)))
                  below_sixty_check) as Hc.
    cbv beta in Hc. rewrite H in Hc. discriminate Hc; lia.
  - intros ->. reflexivity.
Qed.

(** ** The guard on the last element *)

Lemma getitem_not_index (v : json) (k : string) : getitem v k <> Raise IndexError.
Proof.
  unfold getitem. destruct v; try discriminate.
  destruct (assoc k items); discriminate.
Qed.

Lemma collect_not_index (a b : Q) (js : list json) :
  forall acc, collect js a b acc <> Raise IndexError.
Proof.
  induction js as [|j js IH]; intro acc; simpl; [discriminate|].
  destruct (getitem j "start") as [s| |] eqn:Es; simpl; try discriminate;
    [|intro H; injection H as ->; exact (getitem_not_index _ _ Es)].
  destruct (getitem j "end") as [e| |] eqn:Ee; simpl; try discriminate;
    [|intro H; injection H as ->; exact (getitem_not_index _ _ Ee)].
  unfold midpoint.
  destruct (as_number s); [destruct (as_number e)|]; simpl; try discriminate.
  destruct (Qle_bool a ((q + q0) / 2) && Qlt_bool ((q + q0) / 2) b); [|apply IH].
  destruct (getitem j "text") as [t| |] eqn:Et; simpl; try discriminate;
    [|intro H; injection H as ->; exact (getitem_not_index _ _ Et)].
  destruct t; simpl; try discriminate. apply IH.
Qed.

Lemma while_loop_not_index (segments : json) (D T : Q) (fuel : nat) :
  forall ct id acc, while_loop fuel segments D T ct id acc <> Raise IndexError.
Proof.
  induction fuel as [|fuel IH]; intros ct id acc; simpl;
    destruct (Qlt_bool ct T); try discriminate.
  destruct (iter segments) as [l| |] eqn:Ei; simpl; try discriminate.
  - destruct (collect l ct (Py.min (ct + D) T) []) as [txt| |] eqn:Ec; simpl;
      try discriminate; [apply IH|].
    intro H; injection H as ->; exact (collect_not_index _ _ _ _ Ec).
  - unfold iter in Ei. destruct segments; try discriminate; injection Ei as <-;
      discriminate.
Qed.

(** X9: [create_fixed_segments] never raises [IndexError]: the test
    [if segments] keeps [segments[-1]] away from the empty list and the empty
    string, on every document, window length and number of iterations. *)
Theorem never_index_error (fuel : nat) (fs : filesystem) (path : string)
    (D : Q) :
  create_fixed_segments fuel fs path D <> Raise IndexError.
Proof.
  unfold create_fixed_segments.
  destruct (fs path) as [[data|]|]; try discriminate.
  destruct (getitem data "segments") as [segments| |] eqn:Eg; simpl;
    try discriminate;
    [|intro H; injection H as ->; exact (getitem_not_index _ _ Eg)].
  unfold total_duration_of.
  destruct (truthy segments) eqn:Et; simpl; [|apply while_loop_not_index].
  assert (Hlast : getitem_last segments <> Raise IndexError).
  { unfold getitem_last. destruct segments; try discriminate.
    - destruct s as [|c s]; [discriminate Et|].
      destruct (last_char (String c s)) eqn:E; [discriminate|].
      exfalso. exact (last_char_some c s E).
    - destruct l as [|x l]; [discriminate Et|].
      assert (last_item (x :: l) <> None).
      { clear. revert x. induction l as [|y l IH]; intro x; [discriminate|].
        exact (IH y). }
      destruct (last_item (x :: l)); [discriminate | congruence]. }
  destruct (getitem_last segments) as [x| |]; simpl; try discriminate;
    [|congruence].
  destruct (getitem x "end") as [x0| |] eqn:E0; simpl; try discriminate;
    [|intro H; injection H as ->; exact (getitem_not_index _ _ E0)].
  unfold comparable. destruct (as_number x0); simpl; [|discriminate].
  apply while_loop_not_index.
Qed.

(** ** A segment that cannot be read *)

Lemma collect_app_view (a b : Q) (js : list json) (segs : list segment)
    (rest : list json) :
  Forall2 seg_view js segs ->
  forall acc,
    collect (js ++ rest) a b acc
    = collect rest a b
        (acc ++ map (fun s => strip (seg_text s)) (filter (in_window a b) segs)).
Proof.
  induction 1 as [|j s js segs [Hs [He Ht]] _ IH]; intro acc; simpl.
  - now rewrite app_nil_r.
  - rewrite Hs, He. simpl. unfold in_window, mid.
    destruct (Qle_bool a ((seg_start s + seg_end s) / 2)
              && Qlt_bool ((seg_start s + seg_end s) / 2) b); simpl.
    + rewrite Ht. simpl. rewrite IH, <- app_assoc. reflexivity.
    + apply IH.
Qed.

(** X8: [start] and [end] are read of every segment in the first window: when
    the total duration is positive and the segments before the first one
    whose [start] or [end] cannot be read are well typed, the exception of
    that segment is raised in the first iteration, for every window length
    and wherever the segment lies in time. *)
Theorem unreadable_segment_raises (fuel : nat) (path : string) (D : Q)
    (good : list json) (segs : list segment) (bad : json) (rest : list json)
    (e : exn) (j v : json) (q : Q) :
  Forall2 seg_view good segs ->
  getitem bad "start" = Raise e
  \/ (exists s, getitem bad "start" = Ok s /\ getitem bad "end" = Raise e) ->
  last_item (good ++ bad :: rest) = Some j ->
  getitem j "end" = Ok v ->
  as_number v = Some q ->
  0 < q ->
  create_fixed_segments (S fuel)
    (single path (document (good ++ bad :: rest))) path D
  = Raise e.
Proof.
  intros Hv Hbad Hlast Hend Hnum Hq.
  unfold create_fixed_segments. rewrite single_at.
  cbn [document getitem assoc String.eqb Ascii.eqb Bool.eqb bind]. simpl assoc.
  cbn [bind]. unfold total_duration_of.
  replace (truthy (JArr (good ++ bad :: rest))) with true
    by (destruct good; reflexivity).
  unfold getitem_last. rewrite Hlast. cbn [bind]. rewrite Hend. cbn [bind].
  unfold comparable. rewrite Hnum. cbn [bind while_loop].
  replace (Qlt_bool 0 q) with true by (symmetry; apply Qlt_bool_iff; exact Hq).
  cbn [iter bind]. rewrite (collect_app_view _ _ _ _ _ Hv). cbn [collect].
  destruct Hbad as [Hs|[s [Hs He]]].
  - rewrite Hs. reflexivity.
  - rewrite Hs. cbn [bind]. rewrite He. reflexivity.
Qed.

Lemma unreadable_segment_raises_witness :
  create_fixed_segments 1
    (single "in.json"
       (document [JObj [("start", JNum 0); ("end", JNum 4); ("text", JStr "a")];
                  JObj [("end", JNum 90); ("text", JStr "late")];
                  JObj [("start", JNum 4); ("end", JNum 8); ("text", JStr "b")]]))
    "in.json" 5
  = Raise KeyError.
Proof.
  apply (unreadable_segment_raises 0 "in.json" 5
           [JObj [("start", JNum 0); ("end", JNum 4); ("text", JStr "a")]]
           [Segment 0 4 "a"]
           (JObj [("end", JNum 90); ("text", JStr "late")])
           [JObj [("start", JNum 4); ("end", JNum 8); ("text", JStr "b")]]
           KeyError
           (JObj [("start", JNum 4); ("end", JNum 8); ("text", JStr "b")])
           (JNum 8) 8).
  - repeat constructor.
  - left. reflexivity.
  - reflexivity.
  - reflexivity.
  - reflexivity.
  - reflexivity.
Defined.

(** ** Subtitle files of two lists *)

(** X14: the subtitle text of two window lists put one after the other is the
    text of the first followed by the text of the second. *)
Theorem save_as_srt_app (ws1 ws2 : list window) :
  save_as_srt (ws1 ++ ws2) = (save_as_srt ws1 ++ save_as_srt ws2)%string.
Proof.
  unfold save_as_srt.
  rewrite fold_left_app, (fold_write_entry ws2), (fold_write_entry ws2 EmptyString).
  reflexivity.
Qed.
